(** * PowerMethod: power iteration for a dominant Ritz pair

    A shallow embedding of [gtsam/linear/PowerMethod.h].  The class template
    [PowerMethod<Operator>] holds a reference [A_] to the operator, the
    dimension [dim_], a counter [nrIterations_] and the current Ritz pair
    ([ritzValue_], [ritzVector_]).  The methods are translated one by one:
    the constructor, [powerIteration] (both overloads), [converged],
    [nrIterations], [compute], [eigenvalue] and [eigenvector].

    The header computes with [double] and with the dense vectors of the
    linear-algebra library it includes.  The arithmetic is collected in the
    class [Scalar]; its instance [double_Scalar] is the binary64 arithmetic
    of the machine, on which the code runs.  What depends only on the
    control flow of the header is proved for every instance, what depends on
    the numbers is proved on [double]. *)

From Stdlib Require Import List Bool ZArith NArith Lia.
From Stdlib Require Import PrimFloat.
From Stdlib Require SpecFloat FloatOps FloatAxioms.
Import ListNotations.

Set Implicit Arguments.

(** ** Scalars *)

(** The arithmetic the header uses on [double]: the constant [0.0], the four
    operations, the square root behind [norm()] and the comparison [<]. *)
Class Scalar (F : Type) : Type := {
  s_zero : F;
  s_add  : F -> F -> F;
  s_sub  : F -> F -> F;
  s_mul  : F -> F -> F;
  s_div  : F -> F -> F;
  s_sqrt : F -> F;
  s_ltb  : F -> F -> bool
}.

(** [x < y] as a proposition: the test [x < y] of the code answers [true]. *)
Definition s_lt {F} `{Scalar F} (x y : F) : Prop := s_ltb x y = true.

(** IEEE 754 binary64, the [double] of the source. *)
#[export] Instance double_Scalar : Scalar float := {|
  s_zero := 0%float;
  s_add  := PrimFloat.add;
  s_sub  := PrimFloat.sub;
  s_mul  := PrimFloat.mul;
  s_div  := PrimFloat.div;
  s_sqrt := PrimFloat.sqrt;
  s_ltb  := PrimFloat.ltb
|}.

(** ** Dense vectors

    [gtsam::Vector] is a dynamically sized column of [double]: a list of
    scalars.  The operations below are those of the vector library that
    [PowerMethod.h] calls. *)

Definition Vector (F : Type) : Type := list F.

Section DenseVectors.
Context {F : Type} `{Scalar F}.

(** Modelled from the spec: the dense vector library ([gtsam/base/Vector.h]
    and the matrix library behind it) is not under src/.  [x.dot(y)], the dot
    product: the sum of the products of the coefficients. *)
Fixpoint dot (x y : Vector F) : F :=
  match x, y with
  | a :: x', b :: y' => s_add (s_mul a b) (dot x' y')
  | _, _ => s_zero
  end.

(** Modelled from the spec: the dense vector library is not under src/.
    [x.squaredNorm()], the dot product of [x] with itself. *)
Definition squaredNorm (x : Vector F) : F := dot x x.

(** Modelled from the spec: the dense vector library is not under src/.
    [x.norm()], the Euclidean norm. *)
Definition norm (x : Vector F) : F := s_sqrt (squaredNorm x).

(** Modelled from the spec: the dense vector library is not under src/.
    [x.normalize()], division of [x] by its norm.  The library divides only
    when the squared norm is positive, and leaves the vector as it is
    otherwise (the zero vector stays the zero vector). *)
Definition normalize (x : Vector F) : Vector F :=
  let z := squaredNorm x in
  if s_ltb s_zero z then map (fun c => s_div c (s_sqrt z)) x else x.

(** Modelled from the spec: the dense vector library is not under src/.
    [c * x], a vector scaled by a scalar. *)
Definition scale (c : F) (x : Vector F) : Vector F := map (fun a => s_mul c a) x.

(** Modelled from the spec: the dense vector library is not under src/.
    [x - y], the coefficient-wise difference. *)
Fixpoint vsub (x y : Vector F) : Vector F :=
  match x, y with
  | a :: x', b :: y' => s_sub a b :: vsub x' y'
  | _, _ => []
  end.

(** Modelled from the spec: the dense vector library is not under src/.
    [Vector::Zero(n)], the zero vector of length [n]. *)
Definition Zero (n : Z) : Vector F := repeat s_zero (Z.to_nat n).

(** A vector is non-zero when one of its coefficients is. *)
Definition nonzero (x : Vector F) : Prop := exists c, In c x /\ c <> s_zero.

End DenseVectors.

(** ** Operators

    "Template argument Operator just needs multiplication operator": the
    header asks of [Operator] the member [rows()] and the product [A * x]
    with a vector.  The product is the operator's own: the header passes it
    whatever vector it holds, and an operator whose product has a
    precondition on the length of the vector is described here only where
    the precondition holds. *)
Class Operator (F : Type) (Op : Type) : Type := {
  rows   : Op -> Z;
  op_mul : Op -> Vector F -> Vector F
}.

(** A dense matrix, [gtsam::Matrix], as the list of its rows; [A * x] is the
    vector of the dot products of the rows with [x].  (The library requires
    the row length to be the length of [x]; the matrices below are used on
    vectors of their own dimension.) *)
Definition Matrix (F : Type) : Type := list (list F).

#[export] Instance Matrix_Operator {F} `{Scalar F} : Operator F (Matrix F) := {|
  rows   := fun A => Z.of_nat (length A);
  op_mul := fun A x => map (fun r => dot r x) A
|}.

(** An operator that is not stored as a matrix: [c] times the identity in
    dimension [scaling_rows], whose product [c * x] is defined on a vector
    of any length. *)
Record Scaling (F : Type) : Type := {
  scaling_rows   : Z;
  scaling_factor : F
}.

#[export] Instance Scaling_Operator {F} `{Scalar F} : Operator F (Scaling F) := {|
  rows   := fun A => scaling_rows A;
  op_mul := fun A x => scale (scaling_factor A) x
|}.

(** ** Machine integers *)

(** [const int dim_] is initialised from [A.rows()]: the conversion to a
    32-bit [int] keeps the value modulo [2^32], in [-2^31, 2^31). *)
Definition to_int (z : Z) : Z := ((z + 2 ^ 31) mod 2 ^ 32 - 2 ^ 31)%Z.

(** [size_t] is 64 bits wide; [++n] wraps around at [2^64]. *)
Definition size_t_modulus : N := (2 ^ 64)%N.

Definition size_t_incr (n : N) : N := ((n + 1) mod size_t_modulus)%N.

(** ** The solver *)

Section PowerMethod.
Context {F : Type} `{Scalar F} {Op : Type} `{Operator F Op}.

(** The data members of [class PowerMethod]. *)
Record PowerMethod : Type := {
  A_            : Op;        (* const Operator &A_ *)
  dim_          : Z;         (* const int dim_ *)
  nrIterations_ : N;         (* size_t nrIterations_ *)
  ritzValue_    : F;         (* double ritzValue_ *)
  ritzVector_   : Vector F   (* Vector ritzVector_ *)
}.

Definition set_nrIterations (n : N) (s : PowerMethod) : PowerMethod :=
  {| A_ := A_ s; dim_ := dim_ s; nrIterations_ := n;
     ritzValue_ := ritzValue_ s; ritzVector_ := ritzVector_ s |}.

Definition set_ritzValue (v : F) (s : PowerMethod) : PowerMethod :=
  {| A_ := A_ s; dim_ := dim_ s; nrIterations_ := nrIterations_ s;
     ritzValue_ := v; ritzVector_ := ritzVector_ s |}.

Definition set_ritzVector (x : Vector F) (s : PowerMethod) : PowerMethod :=
  {| A_ := A_ s; dim_ := dim_ s; nrIterations_ := nrIterations_ s;
     ritzValue_ := ritzValue_ s; ritzVector_ := x |}.

(** [Vector powerIteration(const Vector &x) const]:
    [y = A_ * x; y.normalize(); return y]. *)
Definition powerIteration (s : PowerMethod) (x : Vector F) : Vector F :=
  let y := op_mul (A_ s) x in
  normalize y.

(** [Vector powerIteration() const { return powerIteration(ritzVector_); }] *)
Definition powerIteration0 (s : PowerMethod) : Vector F :=
  powerIteration s (ritzVector_ s).

(** The constructor.  [Random] stands for [Vector::Random], the generator of
    the vector library, as it answers at the time of the call; it is
    consulted only when no initial vector is given. *)
Definition PowerMethod_new (Random : Z -> Vector F) (A : Op)
    (initial : option (Vector F)) : PowerMethod :=
  let dim := to_int (rows A) in
  let x0 := match initial with Some v => v | None => Random dim end in
  let x0 := normalize x0 in
  let this := {| A_ := A; dim_ := dim; nrIterations_ := 0%N;
                 ritzValue_ := s_zero;           (* ritzValue_ = 0.0 *)
                 ritzVector_ := Zero dim |} in   (* ritzVector_ = Vector::Zero(dim_) *)
  set_ritzVector (powerIteration this x0) this.

(** [bool converged(double tol) const] *)
Definition converged (s : PowerMethod) (tol : F) : bool :=
  let x := ritzVector_ s in
  let ritzValue := dot x (op_mul (A_ s) x) in
  let error := norm (vsub (op_mul (A_ s) x) (scale ritzValue x)) in
  s_ltb error tol.

(** [size_t nrIterations() const] *)
Definition nrIterations (s : PowerMethod) : N := nrIterations_ s.

(** [double eigenvalue() const] *)
Definition eigenvalue (s : PowerMethod) : F := ritzValue_ s.

(** [Vector eigenvector() const] *)
Definition eigenvector (s : PowerMethod) : Vector F := ritzVector_ s.

(** The body of the [for] loop of [compute]: the new value of [isConverged]
    and the updated object. *)
Definition compute_body (tol : F) (s : PowerMethod) : bool * PowerMethod :=
  let s := set_nrIterations (size_t_incr (nrIterations_ s)) s in
  let s := set_ritzVector (powerIteration0 s) s in
  let s := set_ritzValue (dot (ritzVector_ s) (op_mul (A_ s) (ritzVector_ s))) s in
  (converged s tol, s).

(** [for (size_t i = 0; i < maxIterations && !isConverged; i++) body]: the
    first argument is the number [maxIterations - i] of rounds left. *)
Fixpoint compute_loop (left : nat) (tol : F) (isConverged : bool)
    (s : PowerMethod) : bool * PowerMethod :=
  match left with
  | O => (isConverged, s)
  | S left' =>
      if isConverged then (isConverged, s)
      else let (c, s') := compute_body tol s in compute_loop left' tol c s'
  end.

(** [bool compute(size_t maxIterations, double tol)] *)
Definition compute (maxIterations : N) (tol : F) (s : PowerMethod)
    : bool * PowerMethod :=
  compute_loop (N.to_nat maxIterations) tol false s.

End PowerMethod.

Arguments PowerMethod F Op : clear implicits.

(** ** Vocabulary of the claims *)

Section Vocabulary.
Context {F : Type} `{Scalar F} {Op : Type} `{Operator F Op}.

(** The Rayleigh quotient [x . (A x)] of a vector. *)
Definition rayleigh (A : Op) (x : Vector F) : F := dot x (op_mul A x).

(** The Ritz residual norm [|| A x - lambda x ||] of the stored vector, with
    [lambda] the Rayleigh quotient of that vector. *)
Definition ritz_residual (s : PowerMethod F Op) : F :=
  let x := ritzVector_ s in
  let lambda := rayleigh (A_ s) x in
  norm (vsub (op_mul (A_ s) x) (scale lambda x)).

(** The stored value is the Rayleigh quotient of the stored vector. *)
Definition rayleigh_consistent (s : PowerMethod F Op) : Prop :=
  ritzValue_ s = rayleigh (A_ s) (ritzVector_ s).

(** One refinement step, as the specification words it and written out on
    the fields: the Ritz vector becomes the normalised product of the
    operator with the old Ritz vector, the Ritz value the Rayleigh quotient
    of the new vector, and the count grows by one (modulo [2^64]).  The
    operator and the dimension stay. *)
Definition refine (s : PowerMethod F Op) : PowerMethod F Op :=
  let x := normalize (op_mul (A_ s) (ritzVector_ s)) in
  {| A_ := A_ s;
     dim_ := dim_ s;
     nrIterations_ := ((nrIterations_ s + 1) mod 2 ^ 64)%N;
     ritzValue_ := dot x (op_mul (A_ s) x);
     ritzVector_ := x |}.

(** [k] refinement steps in a row. *)
Fixpoint refine_n (k : nat) (s : PowerMethod F Op) : PowerMethod F Op :=
  match k with
  | O => s
  | S k' => refine_n k' (refine s)
  end.

(** A call of a [const] member function returns its result and leaves the
    object it is called on. *)
Definition const_call {T : Type} (m : PowerMethod F Op -> T)
    (s : PowerMethod F Op) : T * PowerMethod F Op := (m s, s).

(** A sequence of calls [compute(maxIterations, tol)] on one object. *)
Definition run_calls (calls : list (N * F)) (s : PowerMethod F Op)
    : PowerMethod F Op :=
  fold_left (fun s c => snd (compute (fst c) (snd c) s)) calls s.

(** The Ritz pairs that the rounds of one call of [compute] store, in order:
    the loop of [compute] with the pair recorded at the end of each round. *)
Fixpoint ritz_trace (left : nat) (tol : F) (isConverged : bool)
    (s : PowerMethod F Op) : list (F * Vector F) :=
  match left with
  | O => []
  | S left' =>
      if isConverged then []
      else let (c, s') := compute_body tol s in
           (ritzValue_ s', ritzVector_ s') :: ritz_trace left' tol c s'
  end.

(** Every round of the loop of [compute] normalises a non-zero product
    [A_ * ritzVector_]. *)
Fixpoint loop_nondegenerate (left : nat) (tol : F) (isConverged : bool)
    (s : PowerMethod F Op) : Prop :=
  match left with
  | O => True
  | S left' =>
      if isConverged then True
      else nonzero (op_mul (A_ s) (ritzVector_ s)) /\
           let (c, s') := compute_body tol s in
           loop_nondegenerate left' tol c s'
  end.

(** The same along a sequence of calls of [compute]. *)
Fixpoint calls_nondegenerate (calls : list (N * F)) (s : PowerMethod F Op)
    : Prop :=
  match calls with
  | [] => True
  | c :: calls' =>
      loop_nondegenerate (N.to_nat (fst c)) (snd c) false s /\
      calls_nondegenerate calls' (snd (compute (fst c) (snd c) s))
  end.

(** The errors the specification names.  The header has no [throw] and no
    check of a length or of a norm. *)
Inductive SolverError : Type :=
| DimensionMismatch
| DegenerateVector.

(** How a call that may fail ends. *)
Inductive outcome (T : Type) : Type :=
| Returned (t : T)
| Failed (e : SolverError).

(** Construction seen as a call that may fail: the constructor runs its
    statements to the end whatever the length of [initial]. *)
Definition construct (Random : Z -> Vector F) (A : Op)
    (initial : option (Vector F)) : outcome (PowerMethod F Op) :=
  Returned (PowerMethod_new Random A initial).

(** [powerIteration] seen as a call that may fail: it returns the vector
    [normalize] leaves, whatever the norm of the product. *)
Definition powerIteration_call (s : PowerMethod F Op) (x : Vector F)
    : outcome (Vector F) :=
  Returned (powerIteration s x).

End Vocabulary.

Arguments Returned {T} t.
Arguments Failed {T} e.

(** ** Concrete operators and vectors *)

(** The matrix [diag(3, 1)] of the specification's scenario. *)
Definition diag31 : Matrix float := [[3; 0]; [0; 1]]%float.

(** The zero matrix in dimension 2. *)
Definition zero22 : Matrix float := [[0; 0]; [0; 0]]%float.

(** Twice the identity, declared with 5 rows. *)
Definition twice5 : Scaling float := {| scaling_rows := 5; scaling_factor := 2%float |}.

(** A generator that is never consulted when an initial vector is given. *)
Definition no_random {F : Type} : Z -> Vector F := fun _ => [].

(** The [double] nearest to [1e-6]. *)
Definition tol_1e6 : float := 0x1.0c6f7a0b5ed8dp-20%float.

(** The machine epsilon of [double]. *)
Definition dbl_epsilon : float := 0x1p-52%float.

(** The matrix [diag(2^700, 1)]: both entries are [double]s, and the square
    of the first is not. *)
Definition diag_big : Matrix float := [[0x1p700; 0]; [0; 1]]%float.

(** A number of the binary64 specification that is not below zero: a zero,
    a positive number, plus infinity, or not a number. *)
Definition sf_not_negative (f : SpecFloat.spec_float) : Prop :=
  match f with
  | SpecFloat.S754_nan => True
  | SpecFloat.S754_zero _ => True
  | SpecFloat.S754_infinity sign => sign = false
  | SpecFloat.S754_finite sign _ _ => sign = false
  end.

(** ** The loop of [compute] *)

Section ComputeLoop.
Context {F : Type} `{Scalar F} {Op : Type} `{Operator F Op}.
Implicit Types (s : PowerMethod F Op) (tol : F).

(** The loop body performs one refinement step and tests the result: the
    counter is incremented first in the code and last in [refine], and
    neither the vector nor the value depends on it. *)
Lemma compute_body_refine tol s :
  compute_body tol s = (converged (refine s) tol, refine s).
Proof. reflexivity. Qed.

(** Once [isConverged] is set the loop is left at once. *)
Lemma compute_loop_converged left tol s :
  compute_loop left tol true s = (true, s).
Proof. destruct left; reflexivity. Qed.

Lemma compute_loop_step left tol s :
  compute_loop (S left) tol false s =
  compute_loop left tol (converged (refine s) tol) (refine s).
Proof. reflexivity. Qed.

(** The fields a refinement step leaves or sets. *)
Lemma refine_A s : A_ (refine s) = A_ s.
Proof. reflexivity. Qed.

Lemma refine_dim s : dim_ (refine s) = dim_ s.
Proof. reflexivity. Qed.

Lemma refine_nrIterations s :
  nrIterations_ (refine s) = size_t_incr (nrIterations_ s).
Proof. reflexivity. Qed.

Lemma refine_ritzVector s :
  ritzVector_ (refine s) = normalize (op_mul (A_ s) (ritzVector_ s)).
Proof. reflexivity. Qed.

Lemma refine_rayleigh_consistent s : rayleigh_consistent (refine s).
Proof. reflexivity. Qed.

Lemma refine_n_succ k s : refine_n (S k) s = refine (refine_n k s).
Proof.
  revert s. induction k as [|k IH]; intros s; [reflexivity|].
  change (refine_n (S (S k)) s) with (refine_n (S k) (refine s)).
  rewrite IH. reflexivity.
Qed.

Lemma refine_n_A k s : A_ (refine_n k s) = A_ s.
Proof.
  revert s. induction k as [|k IH]; intros s; [reflexivity|].
  simpl. rewrite IH. apply refine_A.
Qed.

(** What the loop does, by the number of rounds left: it stops after [k]
    steps, none of the first [k - 1] passed the test, it answers [true]
    exactly when the [k]-th did, and [false] only with the rounds used up. *)
Lemma compute_loop_spec left tol s :
  exists k : nat,
    (k <= left)%nat /\
    snd (compute_loop left tol false s) = refine_n k s /\
    (forall j : nat, (1 <= j < k)%nat -> converged (refine_n j s) tol = false) /\
    (fst (compute_loop left tol false s) = true <->
     (1 <= k)%nat /\ converged (refine_n k s) tol = true) /\
    (fst (compute_loop left tol false s) = false -> k = left).
Proof.
  revert s. induction left as [|left IH]; intros s.
  - exists O. simpl.
    split; [lia|]. split; [reflexivity|]. split; [intros j Hj; lia|].
    split; [|reflexivity].
    split; [discriminate|intros [Hk _]; lia].
  - rewrite compute_loop_step.
    destruct (converged (refine s) tol) eqn:Hc.
    + exists 1%nat. rewrite compute_loop_converged. simpl.
      split; [lia|]. split; [reflexivity|]. split; [intros j Hj; lia|].
      split; [|discriminate].
      split; [intros _; split; [lia|exact Hc]|reflexivity].
    + destruct (IH (refine s)) as (k & Hle & Hs & Hnot & Htrue & Hfalse).
      exists (S k). simpl refine_n.
      split; [lia|]. split; [exact Hs|]. split; [|split].
      * intros j Hj. destruct j as [|[|j]]; [lia|exact Hc|].
        apply (Hnot (S j)). lia.
      * split.
        -- intros Ht. apply Htrue in Ht. split; [lia|apply Ht].
        -- intros [_ Hk]. apply Htrue. split; [|exact Hk].
           destruct k as [|k]; [simpl in Hk; congruence|lia].
      * intros Hf. f_equal. auto.
Qed.

Lemma size_t_incr_small (n : N) :
  (n + 1 < size_t_modulus)%N -> size_t_incr n = (n + 1)%N.
Proof. intros Hlt. unfold size_t_incr. apply N.mod_small. exact Hlt. Qed.

(** Short of the wrap-around, [k] steps add [k] to the counter. *)
Lemma refine_n_nrIterations (k : nat) s :
  (nrIterations_ s + N.of_nat k < size_t_modulus)%N ->
  nrIterations_ (refine_n k s) = (nrIterations_ s + N.of_nat k)%N.
Proof.
  revert s. induction k as [|k IH]; intros s Hlt.
  - simpl. lia.
  - simpl refine_n. rewrite IH; rewrite refine_nrIterations, size_t_incr_small; lia.
Qed.

End ComputeLoop.

(** ** What [compute] returns and performs *)

Section Compute.
Context {F : Type} `{Scalar F} {Op : Type} `{Operator F Op}.
Implicit Types (s : PowerMethod F Op) (tol : F).

(** C1 (as amended): with [maxIterations = 0] the loop of [compute] is not
    entered: the call returns [false], whatever the convergence test would
    answer, and the object (Ritz value, Ritz vector, iteration count) is the
    one it was called on. *)
Theorem compute_zero_iterations s tol :
  fst (compute 0 tol s) = false /\
  snd (compute 0 tol s) = s /\
  eigenvalue (snd (compute 0 tol s)) = eigenvalue s /\
  eigenvector (snd (compute 0 tol s)) = eigenvector s /\
  nrIterations (snd (compute 0 tol s)) = nrIterations s.
Proof. repeat split. Qed.

(** [compute] performs at most [maxIterations] refinement steps. *)
Lemma compute_steps_bound (maxIterations : N) tol s :
  exists k : nat,
    (k <= N.to_nat maxIterations)%nat /\
    snd (compute maxIterations tol s) = refine_n k s.
Proof.
  destruct (compute_loop_spec (N.to_nat maxIterations) tol s)
    as (k & Hle & Hs & _).
  exists k. split; [exact Hle|exact Hs].
Qed.

(** C4: [compute(maxIterations, tol)] performs [k <= maxIterations]
    refinement steps, each one ([refine]) the normalised product of the
    operator with the stored vector, the Rayleigh quotient of the new vector
    and an increment of the counter, so that the count grows by [k] (short
    of the wrap-around).  No step before the [k]-th passed the convergence
    test; the call returns [true] exactly when the [k]-th step passed it,
    and when it returns [false] all [maxIterations] steps were performed. *)
Theorem compute_refinement_steps (maxIterations : N) tol s :
  exists k : nat,
    (k <= N.to_nat maxIterations)%nat /\
    snd (compute maxIterations tol s) = refine_n k s /\
    ((nrIterations s + N.of_nat k < 2 ^ 64)%N ->
     nrIterations (snd (compute maxIterations tol s)) =
     (nrIterations s + N.of_nat k)%N) /\
    (forall j : nat, (1 <= j < k)%nat -> converged (refine_n j s) tol = false) /\
    (fst (compute maxIterations tol s) = true <->
     (1 <= k)%nat /\ converged (refine_n k s) tol = true) /\
    (fst (compute maxIterations tol s) = false -> k = N.to_nat maxIterations).
Proof.
  unfold compute.
  destruct (compute_loop_spec (N.to_nat maxIterations) tol s)
    as (k & Hle & Hs & Hrest).
  exists k. split; [exact Hle|]. split; [exact Hs|]. split; [|exact Hrest].
  intros Hlt. unfold nrIterations. rewrite Hs.
  apply refine_n_nrIterations. exact Hlt.
Qed.

(** A call with a positive budget performs at least one step. *)
Lemma compute_performs_step (maxIterations : N) tol s :
  (0 < maxIterations)%N ->
  exists s', snd (compute maxIterations tol s) = refine s'.
Proof.
  intros Hpos.
  destruct (compute_loop_spec (N.to_nat maxIterations) tol s)
    as (k & Hle & Hs & _ & Htrue & Hfalse).
  fold (compute maxIterations tol s) in Hs, Htrue, Hfalse.
  destruct k as [|k].
  - destruct (fst (compute maxIterations tol s)).
    + destruct (proj1 Htrue eq_refl). lia.
    + specialize (Hfalse eq_refl). lia.
  - exists (refine_n k s). rewrite Hs. apply refine_n_succ.
Qed.

(** [compute] leaves the operator it refers to. *)
Lemma compute_A (maxIterations : N) tol s :
  A_ (snd (compute maxIterations tol s)) = A_ s.
Proof.
  destruct (compute_steps_bound maxIterations tol s) as (k & _ & Hs).
  rewrite Hs. apply refine_n_A.
Qed.

(** C7: [converged(tol)] answers [true] exactly when the Ritz residual norm
    of the stored vector, taken with the Rayleigh quotient of that vector,
    is below [tol]; being a [const] member it leaves the Ritz value, the
    Ritz vector and the iteration count. *)
Theorem converged_iff_residual_below_tol s tol :
  (fst (const_call (fun s => converged s tol) s) = true <->
   s_lt (ritz_residual s) tol) /\
  ritzValue_ (snd (const_call (fun s => converged s tol) s)) = ritzValue_ s /\
  ritzVector_ (snd (const_call (fun s => converged s tol) s)) = ritzVector_ s /\
  nrIterations (snd (const_call (fun s => converged s tol) s)) = nrIterations s.
Proof.
  split; [|repeat split].
  unfold const_call, converged, ritz_residual, rayleigh, s_lt. simpl.
  split; intros Hlt; exact Hlt.
Qed.

(** The last element of a non-empty list, whatever the default. *)
Lemma last_cons_default {T : Type} (l : list T) (a d : T) :
  last (a :: l) d = last l a.
Proof.
  revert a d. induction l as [|b l IH]; intros a d; [reflexivity|].
  change (last (a :: b :: l) d) with (last (b :: l) d).
  rewrite (IH b d), (IH b a). reflexivity.
Qed.

(** The recorded Ritz pairs end with the pair [compute] leaves in the
    object. *)
Lemma ritz_trace_last left tol s :
  last (ritz_trace left tol false s) (ritzValue_ s, ritzVector_ s) =
  (ritzValue_ (snd (compute_loop left tol false s)),
   ritzVector_ (snd (compute_loop left tol false s))).
Proof.
  revert s. induction left as [|left IH]; intros s; [reflexivity|].
  rewrite compute_loop_step.
  change (ritz_trace (S left) tol false s)
    with ((ritzValue_ (refine s), ritzVector_ (refine s))
          :: ritz_trace left tol (converged (refine s) tol) (refine s)).
  rewrite last_cons_default.
  destruct (converged (refine s) tol).
  - rewrite compute_loop_converged. destruct left; reflexivity.
  - apply IH.
Qed.

(** C9: the constructor consults the random generator only when no initial
    vector is supplied.  Two runs over the same operator and the same
    explicit initial vector, whatever the generators at hand, build the same
    object, and [compute] with the same parameters returns the same answer,
    leaves the same object and stores the same sequence of Ritz pairs. *)
Theorem explicit_initial_deterministic
    (Random1 Random2 : Z -> Vector F) (A : Op) (v : Vector F)
    (maxIterations : N) tol :
  PowerMethod_new Random1 A (Some v) = PowerMethod_new Random2 A (Some v) /\
  compute maxIterations tol (PowerMethod_new Random1 A (Some v)) =
  compute maxIterations tol (PowerMethod_new Random2 A (Some v)) /\
  ritz_trace (N.to_nat maxIterations) tol false
    (PowerMethod_new Random1 A (Some v)) =
  ritz_trace (N.to_nat maxIterations) tol false
    (PowerMethod_new Random2 A (Some v)).
Proof. repeat split. Qed.

End Compute.

(** ** The iteration count *)

Section IterationCount.
Context {F : Type} `{Scalar F} {Op : Type} `{Operator F Op}.
Implicit Types (s : PowerMethod F Op) (tol : F).

(** A freshly constructed solver has performed no counted iteration. *)
Lemma nrIterations_new (Random : Z -> Vector F) (A : Op) initial :
  nrIterations (PowerMethod_new Random A initial) = 0%N.
Proof. reflexivity. Qed.

(** The count after a call, from the count before it. *)
Lemma compute_nrIterations_bounds s (maxIterations : N) tol :
  (nrIterations_ s + maxIterations < size_t_modulus)%N ->
  (nrIterations_ s <= nrIterations_ (snd (compute maxIterations tol s))
                   <= nrIterations_ s + maxIterations)%N.
Proof.
  intros Hlt.
  destruct (compute_steps_bound maxIterations tol s) as (k & Hle & Hs).
  rewrite Hs, refine_n_nrIterations; lia.
Qed.

(** C8 (as amended): the counter is cumulative.  A call
    [compute(maxIterations, tol)] on a solver whose count is [c] leaves a
    count in [[c, c + maxIterations]] (the steps of this call are at most
    [maxIterations]; the interval [[0, maxIterations]] is that of a first
    call, where [c = 0]), so the count does not decrease from call to call;
    this as long as [c + maxIterations] stays in the range of [size_t]. *)
Theorem nrIterations_after_compute s (maxIterations : N) tol :
  (nrIterations s + maxIterations < size_t_modulus)%N ->
  (nrIterations s <= nrIterations (snd (compute maxIterations tol s))
                  <= nrIterations s + maxIterations)%N.
Proof.
  intros Hlt. unfold nrIterations in *.
  apply compute_nrIterations_bounds. exact Hlt.
Qed.

(** X1. The first call after construction leaves a count in
    [[0, maxIterations]]. *)
Lemma nrIterations_first_compute (Random : Z -> Vector F) (A : Op) initial
    (maxIterations : N) tol :
  (maxIterations < size_t_modulus)%N ->
  (nrIterations (snd (compute maxIterations tol
                        (PowerMethod_new Random A initial))) <= maxIterations)%N.
Proof.
  intros Hlt. unfold nrIterations.
  apply (compute_nrIterations_bounds (PowerMethod_new Random A initial)).
  simpl. lia.
Qed.

End IterationCount.

(** ** Rayleigh quotient consistency *)

Section RayleighConsistency.
Context {F : Type} `{Scalar F} {Op : Type} `{Operator F Op}.
Implicit Types (s : PowerMethod F Op) (tol : F).

(** The constructor stores the baseline [0.0], not a Rayleigh quotient. *)
Lemma eigenvalue_new (Random : Z -> Vector F) (A : Op) initial :
  eigenvalue (PowerMethod_new Random A initial) = s_zero.
Proof. reflexivity. Qed.

(** A call that performs a step ends on a consistent pair. *)
Lemma compute_establishes_rayleigh (maxIterations : N) tol s :
  (0 < maxIterations)%N ->
  rayleigh_consistent (snd (compute maxIterations tol s)).
Proof.
  intros Hpos.
  destruct (compute_performs_step tol s Hpos) as (s' & Hs).
  rewrite Hs. apply refine_rayleigh_consistent.
Qed.

(** A call keeps a consistent pair consistent. *)
Lemma compute_preserves_rayleigh (maxIterations : N) tol s :
  rayleigh_consistent s ->
  rayleigh_consistent (snd (compute maxIterations tol s)).
Proof.
  intros Hs.
  destruct (N.eq_0_gt_0_cases maxIterations) as [Hz | Hpos].
  - subst maxIterations. exact Hs.
  - apply compute_establishes_rayleigh. exact Hpos.
Qed.

Lemma run_calls_rayleigh (calls : list (N * F)) s :
  rayleigh_consistent s \/ Exists (fun c => (0 < fst c)%N) calls ->
  rayleigh_consistent (run_calls calls s).
Proof.
  revert s. induction calls as [|c calls IH]; intros s Hor.
  - destruct Hor as [Hs | Hex]; [exact Hs|inversion Hex].
  - change (run_calls (c :: calls) s)
      with (run_calls calls (snd (compute (fst c) (snd c) s))).
    apply IH.
    destruct Hor as [Hs | Hex].
    + left. apply compute_preserves_rayleigh. exact Hs.
    + inversion Hex as [? ? Hpos | ? ? Hrest]; subst.
      * left. apply compute_establishes_rayleigh. exact Hpos.
      * right. exact Hrest.
Qed.

(** C3 (as amended): right after construction the stored Ritz value is the
    baseline [0], and calls with [maxIterations = 0] leave it so; in every
    state reached from construction by calls of [compute] of which at least
    one has [maxIterations >= 1], the stored Ritz value is the Rayleigh
    quotient of the stored Ritz vector. *)
Theorem ritzValue_rayleigh_after_iteration
    (Random : Z -> Vector F) (A : Op) initial (calls : list (N * F)) :
  Exists (fun c => (0 < fst c)%N) calls ->
  eigenvalue (PowerMethod_new Random A initial) = s_zero /\
  rayleigh_consistent (run_calls calls (PowerMethod_new Random A initial)).
Proof.
  intros Hex. split; [reflexivity|].
  apply run_calls_rayleigh. right. exact Hex.
Qed.

End RayleighConsistency.

(** ** Calls that could fail *)

Section NoFailure.
Context {F : Type} `{Scalar F} {Op : Type} `{Operator F Op}.
Implicit Types (s : PowerMethod F Op) (tol : F).

(** C2 (as amended): the constructor compares no lengths.  For every
    operator and every initial vector, of the operator's dimension or not,
    or none, construction returns a solver: its count is 0, its Ritz value
    the baseline 0, its Ritz vector one power iteration of the normalised
    start vector.  It never fails with [DimensionMismatch]. *)
Theorem construct_never_fails
    (Random : Z -> Vector F) (A : Op) (initial : option (Vector F)) :
  exists s : PowerMethod F Op,
    construct Random A initial = Returned s /\
    construct Random A initial <> Failed DimensionMismatch /\
    A_ s = A /\
    dim_ s = to_int (rows A) /\
    nrIterations s = 0%N /\
    eigenvalue s = s_zero /\
    eigenvector s =
      normalize (op_mul A (normalize
        match initial with Some v => v | None => Random (to_int (rows A)) end)).
Proof.
  exists (PowerMethod_new Random A initial).
  split; [reflexivity|]. split; [discriminate|]. repeat split.
Qed.

(** C5 (as amended): [powerIteration] tests no norm.  For every vector it
    returns the product [A_ * x] as [normalize] leaves it, and never fails
    with [DegenerateVector]. *)
Theorem powerIteration_never_fails s (x : Vector F) :
  powerIteration_call s x = Returned (normalize (op_mul (A_ s) x)) /\
  powerIteration_call s x <> Failed DegenerateVector.
Proof. split; [reflexivity|discriminate]. Qed.

(** The convergence test reads the operator and the Ritz vector only. *)
Lemma converged_ext (s1 s2 : PowerMethod F Op) tol :
  A_ s1 = A_ s2 -> ritzVector_ s1 = ritzVector_ s2 ->
  converged s1 tol = converged s2 tol.
Proof.
  intros HA Hx. unfold converged. rewrite HA, Hx. reflexivity.
Qed.

End NoFailure.

(** ** Runs on [double] *)

(** Two [double]s that a boolean test separates are different. *)
Lemma float_neq (test : float -> bool) (x y : float) :
  test x = true -> test y = false -> x <> y.
Proof. intros Hx Hy Heq. rewrite Heq in Hx. congruence. Qed.

(** The scenario of the specification: [diag(3, 1)] started at [(1, 1)]
    converges to the eigenvalue 3 within the tolerance [1e-6] after 13
    counted iterations. *)
Example diag31_converges :
  let s := PowerMethod_new no_random diag31 (Some [1; 1]%float) in
  fst (compute 100 tol_1e6 s) = true /\
  nrIterations (snd (compute 100 tol_1e6 s)) = 13%N /\
  PrimFloat.ltb (PrimFloat.abs (eigenvalue (snd (compute 100 tol_1e6 s)) - 3))
                tol_1e6 = true.
Proof. vm_compute. repeat split. Qed.

(** C1, counterexample: on [diag(3, 1)] started at the eigenvector [(1, 0)]
    the convergence test passes right after construction, and
    [compute(0, 1e-6)] returns [false]. *)
Lemma compute_zero_not_hasConverged :
  let s := PowerMethod_new no_random diag31 (Some [1; 0]%float) in
  converged s tol_1e6 = true /\
  fst (compute 0 tol_1e6 s) = false /\
  fst (compute 0 tol_1e6 s) <> converged s tol_1e6.
Proof.
  assert (Hc : converged (PowerMethod_new no_random diag31 (Some [1; 0]%float))
                 tol_1e6 = true) by (vm_compute; reflexivity).
  cbv zeta. rewrite Hc. split; [reflexivity|]. split; [reflexivity|discriminate].
Qed.

(** C2, counterexample: an operator with 5 rows and an initial vector of
    length 3.  Construction returns a solver, whose Ritz vector has length
    3; it does not fail with [DimensionMismatch]. *)
Lemma construct_length_mismatch_returns :
  let v := [1; 2; 2]%float in
  rows twice5 = 5%Z /\ length v = 3%nat /\
  construct no_random twice5 (Some v) <> Failed DimensionMismatch /\
  exists s, construct no_random twice5 (Some v) = Returned s /\
            length (eigenvector s) = 3%nat.
Proof.
  cbv zeta. split; [reflexivity|]. split; [reflexivity|]. split; [discriminate|].
  eexists. split; [reflexivity|]. vm_compute. reflexivity.
Qed.

(** C3, counterexample: right after the construction on [diag(3, 1)] and
    [(1, 1)] the stored Ritz value is [0] and the Rayleigh quotient of the
    stored Ritz vector is not (it is about 2.8). *)
Lemma ritzValue_after_construction_not_rayleigh :
  let s := PowerMethod_new no_random diag31 (Some [1; 1]%float) in
  eigenvalue s = 0%float /\
  PrimFloat.ltb 2 (rayleigh (A_ s) (eigenvector s)) = true /\
  ~ rayleigh_consistent s.
Proof.
  cbv zeta. split; [reflexivity|]. split; [vm_compute; reflexivity|].
  unfold rayleigh_consistent.
  apply (float_neq (fun x => PrimFloat.ltb x 1)); vm_compute; reflexivity.
Qed.

(** C3, witness: one call with [maxIterations = 1]. *)
Lemma ritzValue_rayleigh_after_iteration_witness :
  let s := PowerMethod_new no_random diag31 (Some [1; 1]%float) in
  Exists (fun c : N * float => (0 < fst c)%N) [(1%N, tol_1e6)] /\
  eigenvalue s = 0%float /\
  rayleigh_consistent (run_calls [(1%N, tol_1e6)] s).
Proof.
  cbv zeta.
  assert (Hex : Exists (fun c : N * float => (0 < fst c)%N) [(1%N, tol_1e6)])
    by (apply Exists_cons_hd; reflexivity).
  split; [exact Hex|].
  exact (ritzValue_rayleigh_after_iteration no_random diag31
           (Some [1; 1]%float) Hex).
Defined.

(** C5, counterexample: the zero matrix maps [(1, 0)] to the zero vector,
    whose norm is below the machine epsilon; [powerIteration] returns the
    zero vector and does not fail. *)
Lemma powerIteration_zero_product_returns :
  let s := PowerMethod_new no_random zero22 (Some [1; 0]%float) in
  let x := [1; 0]%float in
  PrimFloat.ltb (norm (op_mul (A_ s) x)) dbl_epsilon = true /\
  powerIteration_call s x = Returned [0; 0]%float /\
  powerIteration_call s x <> Failed DegenerateVector.
Proof.
  cbv zeta. split; [vm_compute; reflexivity|].
  split; [vm_compute; reflexivity|discriminate].
Qed.

(** C8, counterexample: two calls [compute(1, 0)] in a row (no residual is
    below [0], so each performs its step) leave the count 2, outside
    [[0, 1]]. *)
Lemma nrIterations_exceeds_maxIterations :
  let s0 := PowerMethod_new no_random diag31 (Some [1; 1]%float) in
  let s1 := snd (compute 1 0%float s0) in
  let s2 := snd (compute 1 0%float s1) in
  nrIterations s2 = 2%N /\ ~ (0 <= nrIterations s2 <= 1)%N.
Proof.
  cbv zeta.
  assert (H2 : nrIterations
                 (snd (compute 1 0%float
                    (snd (compute 1 0%float
                       (PowerMethod_new no_random diag31 (Some [1; 1]%float))))))
               = 2%N) by (vm_compute; reflexivity).
  rewrite H2. split; [reflexivity|lia].
Qed.

(** C8, witness: a call with budget 3 on a fresh solver. *)
Lemma nrIterations_after_compute_witness :
  let s := PowerMethod_new no_random diag31 (Some [1; 1]%float) in
  (nrIterations s + 3 < size_t_modulus)%N /\
  (nrIterations s <= nrIterations (snd (compute 3 tol_1e6 s))
                  <= nrIterations s + 3)%N.
Proof.
  cbv zeta.
  assert (Hlt : (nrIterations (PowerMethod_new no_random diag31
                                 (Some [1; 1]%float)) + 3 < size_t_modulus)%N)
    by (vm_compute; reflexivity).
  split; [exact Hlt|].
  exact (@nrIterations_after_compute _ _ _ _
           (PowerMethod_new no_random diag31 (Some [1; 1]%float))
           3%N tol_1e6 Hlt).
Defined.

(** C10: the answer of [converged(tol)] is a function of the operator, the
    stored Ritz vector and [tol]: two solvers over the same operator with
    the same Ritz vector get the same answer whatever their stored Ritz
    values.  So it can answer [true] right after construction, while
    [eigenvalue()] is still the baseline [0]: it does on [diag(3, 1)]
    started at [(1, 0)]. *)
Theorem converged_independent_of_ritzValue :
  (forall (F : Type) (SF : Scalar F) (Op : Type) (OO : Operator F Op)
          (s1 s2 : PowerMethod F Op) (tol : F),
      A_ s1 = A_ s2 -> ritzVector_ s1 = ritzVector_ s2 ->
      converged s1 tol = converged s2 tol) /\
  (exists (A : Matrix float) (v : Vector float) (tol : float),
      converged (PowerMethod_new no_random A (Some v)) tol = true /\
      eigenvalue (PowerMethod_new no_random A (Some v)) = 0%float).
Proof.
  split.
  - intros F SF Op OO s1 s2 tol HA Hx. apply converged_ext; assumption.
  - exists diag31, [1; 0]%float, tol_1e6.
    split; [vm_compute; reflexivity|reflexivity].
Qed.

(** C10, witness: the solver constructed on [diag(3, 1)] and [(1, 0)], and
    the same with the Ritz value 3 stored. *)
Lemma converged_independent_of_ritzValue_witness :
  let s1 := PowerMethod_new no_random diag31 (Some [1; 0]%float) in
  let s2 := set_ritzValue 3%float s1 in
  A_ s1 = A_ s2 /\ ritzVector_ s1 = ritzVector_ s2 /\
  ritzValue_ s1 <> ritzValue_ s2 /\
  converged s1 tol_1e6 = converged s2 tol_1e6.
Proof.
  cbv zeta. split; [reflexivity|]. split; [reflexivity|]. split.
  - apply (float_neq (fun x => PrimFloat.ltb x 1)); vm_compute; reflexivity.
  - exact (proj1 converged_independent_of_ritzValue _ _ _ _
             (PowerMethod_new no_random diag31 (Some [1; 0]%float))
             (set_ritzValue 3%float
                (PowerMethod_new no_random diag31 (Some [1; 0]%float)))
             tol_1e6 eq_refl eq_refl).
Defined.

(** X1, witness: the first call after construction, here with budget 3 and
    a tolerance no residual is below, leaves a count in [[0, 3]]. *)
Lemma nrIterations_first_compute_witness :
  (3 < size_t_modulus)%N /\
  (nrIterations (snd (compute 3 0%float
     (PowerMethod_new no_random diag31 (Some [1; 1]%float)))) <= 3)%N.
Proof.
  assert (Hlt : (3 < size_t_modulus)%N) by (vm_compute; reflexivity).
  split; [exact Hlt|].
  exact (@nrIterations_first_compute _ _ _ _ no_random diag31
           (Some [1; 1]%float) 3%N 0%float Hlt).
Defined.

(** The singular matrix [diag(0, 1)] on [double]: started at [(1, 0)], the
    constructor stores the zero vector, of norm 0. *)
Remark singular_construction_on_double :
  let s := PowerMethod_new no_random [[0; 0]; [0; 1]]%float (Some [1; 0]%float) in
  eigenvector s = [0; 0]%float /\ norm (eigenvector s) = 0%float.
Proof. cbv zeta. split; vm_compute; reflexivity. Qed.

(** C6, the code at a failing input: [diag(2^700, 1)] with the initial
    vector [(1, 1)].  The initial vector is non-zero and so is the product
    the constructor normalises, [(2^700 / sqrt 2, 1 / sqrt 2)]; its squared
    norm overflows to infinity, [normalize] divides by infinity, and the
    stored Ritz vector is the zero vector, of norm 0, after construction and
    after a call [compute(0, 1e-6)]. *)
Theorem ritzVector_norm_lost_on_overflow :
  let s := PowerMethod_new no_random diag_big (Some [1; 1]%float) in
  nonzero [1; 1]%float /\
  nonzero (op_mul diag_big (normalize [1; 1]%float)) /\
  squaredNorm (op_mul diag_big (normalize [1; 1]%float)) = infinity /\
  calls_nondegenerate [(0%N, tol_1e6)] s /\
  eigenvector s = [0; 0]%float /\
  norm (eigenvector s) = 0%float /\
  norm (eigenvector (run_calls [(0%N, tol_1e6)] s)) = 0%float /\
  norm (eigenvector s) <> 1%float.
Proof.
  cbv zeta.
  assert (Hone : (1 <> 0)%float)
    by (apply (float_neq (fun x => PrimFloat.ltb 0 x)); vm_compute; reflexivity).
  split; [exists 1%float; split; [left; reflexivity|exact Hone]|].
  split.
  { exists (PrimFloat.div 1 (PrimFloat.sqrt 2)). split.
    - right. left. vm_compute. reflexivity.
    - apply (float_neq (fun x => PrimFloat.ltb 0 x)); vm_compute; reflexivity. }
  split; [vm_compute; reflexivity|].
  split; [split; exact I|].
  split; [vm_compute; reflexivity|].
  split; [vm_compute; reflexivity|].
  split; [vm_compute; reflexivity|].
  apply (float_neq (fun x => PrimFloat.ltb x 1)); vm_compute; reflexivity.
Qed.

(** The same overflow inside [compute]: constructed on [diag(2^700, 1)] and
    [(2^-700, 1)] the Ritz vector is [(1, 1) / sqrt 2]; one step stores the
    zero vector and the Ritz value 0, whose residual is 0, and [compute]
    returns [true]. *)
Remark compute_converges_to_zero_on_overflow :
  let s := PowerMethod_new no_random diag_big (Some [0x1p-700; 1]%float) in
  PrimFloat.ltb 0.5 (norm (eigenvector s)) = true /\
  fst (compute 1 tol_1e6 s) = true /\
  eigenvector (snd (compute 1 tol_1e6 s)) = [0; 0]%float /\
  eigenvalue (snd (compute 1 tol_1e6 s)) = 0%float.
Proof. cbv zeta. repeat split; vm_compute; reflexivity. Qed.

(** The counter is a [size_t]: on an object whose count is [2^64 - 1] one
    more step wraps it to 0. *)
Remark nrIterations_wraps :
  let s := set_nrIterations (size_t_modulus - 1)
             (PowerMethod_new no_random diag31 (Some [1; 1]%float)) in
  nrIterations s = 18446744073709551615%N /\
  nrIterations (snd (compute 1 0%float s)) = 0%N.
Proof. cbv zeta. split; vm_compute; reflexivity. Qed.

(** In [double] the normalised vector has norm 1 only up to rounding: after
    the construction on [diag(3, 1)] and [(1, 2)] the norm of the Ritz
    vector is the [double] just below 1. *)
Remark ritzVector_norm_rounded :
  let s := PowerMethod_new no_random diag31 (Some [1; 2]%float) in
  norm (eigenvector s) = 0x1.fffffffffffffp-1%float /\
  norm (eigenvector s) <> 1%float.
Proof.
  cbv zeta. split; [vm_compute; reflexivity|].
  apply (float_neq (fun x => PrimFloat.ltb x 1)); vm_compute; reflexivity.
Qed.

(** ** Laws of [compute] *)

Section ComputeLaws.
Context {F : Type} `{Scalar F} {Op : Type} `{Operator F Op}.
Implicit Types (s : PowerMethod F Op) (tol : F).

(** A loop of [a + b] rounds is a loop of [a] rounds followed by a loop of
    [b] rounds that starts with the flag the first one left. *)
Lemma compute_loop_add (a b : nat) tol (c : bool) s :
  compute_loop (a + b) tol c s =
  compute_loop b tol (fst (compute_loop a tol c s))
                     (snd (compute_loop a tol c s)).
Proof.
  revert c s. induction a as [|a IH]; intros c s; [reflexivity|].
  destruct c.
  - rewrite (compute_loop_converged (S a + b)), (compute_loop_converged (S a)).
    simpl. symmetry. apply compute_loop_converged.
  - change (S a + b)%nat with (S (a + b)).
    rewrite !compute_loop_step. apply IH.
Qed.

(** The number of steps of a call, with what the call answers. *)
Lemma compute_steps (maxIterations : N) tol s :
  exists k : nat,
    (k <= N.to_nat maxIterations)%nat /\
    snd (compute maxIterations tol s) = refine_n k s /\
    ((0 < maxIterations)%N -> (1 <= k)%nat) /\
    ((1 <= k)%nat ->
     fst (compute maxIterations tol s) = converged (refine_n k s) tol) /\
    (fst (compute maxIterations tol s) = false -> k = N.to_nat maxIterations).
Proof.
  destruct (compute_loop_spec (N.to_nat maxIterations) tol s)
    as (k & Hle & Hs & _ & Htrue & Hfalse).
  fold (compute maxIterations tol s) in Hs, Htrue, Hfalse.
  exists k. split; [exact Hle|]. split; [exact Hs|].
  split; [|split; [|exact Hfalse]].
  - intros Hpos. destruct (fst (compute maxIterations tol s)).
    + apply (proj1 Htrue eq_refl).
    + rewrite (Hfalse eq_refl). lia.
  - intros Hk. destruct (fst (compute maxIterations tol s)).
    + symmetry. apply (proj1 Htrue eq_refl).
    + destruct (converged (refine_n k s) tol) eqn:Hc; [|reflexivity].
      apply (proj2 Htrue). split; [exact Hk|reflexivity].
Qed.

(** Refinement steps leave the dimension. *)
Lemma refine_n_dim k s : dim_ (refine_n k s) = dim_ s.
Proof.
  revert s. induction k as [|k IH]; intros s; [reflexivity|].
  simpl. rewrite IH. apply refine_dim.
Qed.

(** With a tolerance that no state meets, [compute] returns [false] and
    performs all its steps. *)
Lemma compute_never_converged (maxIterations : N) tol s :
  (forall s', converged s' tol = false) ->
  fst (compute maxIterations tol s) = false /\
  snd (compute maxIterations tol s) = refine_n (N.to_nat maxIterations) s.
Proof.
  intros Hnever.
  destruct (compute_steps maxIterations tol s) as (k & _ & Hs & Hk & Hres & Hf).
  assert (Hfalse : fst (compute maxIterations tol s) = false).
  { destruct k as [|k].
    - destruct (N.eq_0_gt_0_cases maxIterations) as [Hz | Hp].
      + subst maxIterations. reflexivity.
      + specialize (Hk Hp). lia.
    - rewrite Hres by lia. apply Hnever. }
  split; [exact Hfalse|]. rewrite Hs, (Hf Hfalse). reflexivity.
Qed.

(** [compute] leaves the operator and the dimension, over any calls. *)
Lemma run_calls_frame (calls : list (N * F)) s :
  A_ (run_calls calls s) = A_ s /\ dim_ (run_calls calls s) = dim_ s.
Proof.
  revert s. induction calls as [|c calls IH]; intros s; [split; reflexivity|].
  change (run_calls (c :: calls) s)
    with (run_calls calls (snd (compute (fst c) (snd c) s))).
  destruct (compute_steps_bound (fst c) (snd c) s) as (k & _ & Hk).
  destruct (IH (snd (compute (fst c) (snd c) s))) as [HA Hdim].
  rewrite HA, Hdim, Hk, refine_n_A, refine_n_dim. split; reflexivity.
Qed.

(** X2. A call that iterates answers what the convergence test answers on the
    object it leaves: for [maxIterations >= 1] the result of
    [compute(maxIterations, tol)] is [converged(tol)] of the final state. *)
Theorem compute_result_is_converged (maxIterations : N) tol s :
  (0 < maxIterations)%N ->
  fst (compute maxIterations tol s) =
  converged (snd (compute maxIterations tol s)) tol.
Proof.
  intros Hpos.
  destruct (compute_steps maxIterations tol s) as (k & _ & Hs & Hk & Hres & _).
  rewrite Hs. apply Hres, Hk, Hpos.
Qed.

(** X3. When [compute] returns [true], the pair it leaves in the object meets
    the tolerance: the residual norm of [eigenvector()] taken with the
    stored [eigenvalue()] is below [tol]. *)
Theorem compute_true_residual_below_tol (maxIterations : N) tol s :
  fst (compute maxIterations tol s) = true ->
  s_lt (norm (vsub
          (op_mul (A_ s) (eigenvector (snd (compute maxIterations tol s))))
          (scale (eigenvalue (snd (compute maxIterations tol s)))
                 (eigenvector (snd (compute maxIterations tol s))))))
       tol.
Proof.
  intros Htrue.
  assert (Hpos : (0 < maxIterations)%N).
  { destruct (N.eq_0_gt_0_cases maxIterations) as [Hz | Hp]; [|exact Hp].
    subst maxIterations. discriminate Htrue. }
  pose proof (compute_establishes_rayleigh tol s Hpos) as Hray.
  destruct (compute_steps maxIterations tol s) as (k & _ & Hs & Hk & Hres & _).
  rewrite (Hres (Hk Hpos)), <- Hs in Htrue.
  unfold eigenvalue, eigenvector. rewrite Hray.
  unfold rayleigh_consistent, rayleigh in *.
  rewrite <- (compute_A maxIterations tol s).
  exact Htrue.
Qed.

(** X4. A call with [maxIterations >= 1] performs a step even on an object that
    already meets the tolerance: the count grows by at least 1 (short of
    the wrap-around of [size_t]). *)
Theorem compute_always_counts (maxIterations : N) tol s :
  (0 < maxIterations)%N ->
  (nrIterations s + maxIterations < size_t_modulus)%N ->
  (nrIterations s < nrIterations (snd (compute maxIterations tol s)))%N.
Proof.
  intros Hpos Hlt. unfold nrIterations in *.
  destruct (compute_steps maxIterations tol s) as (k & Hle & Hs & Hk & _).
  specialize (Hk Hpos).
  rewrite Hs, refine_n_nrIterations; lia.
Qed.

(** X5. A call that returns [false] has used its whole budget: the count has
    grown by exactly [maxIterations] (short of the wrap-around). *)
Theorem compute_false_uses_budget (maxIterations : N) tol s :
  fst (compute maxIterations tol s) = false ->
  (nrIterations s + maxIterations < size_t_modulus)%N ->
  nrIterations (snd (compute maxIterations tol s)) =
  (nrIterations s + maxIterations)%N.
Proof.
  intros Hfalse Hlt. unfold nrIterations in *.
  destruct (compute_steps maxIterations tol s) as (k & Hle & Hs & _ & _ & Hk).
  specialize (Hk Hfalse).
  rewrite Hs, refine_n_nrIterations; lia.
Qed.

(** At a vector that a power iteration maps to itself, steps change
    neither the vector nor the answer of the convergence test. *)
Lemma refine_n_fixed_point (k : nat) tol s :
  powerIteration s (ritzVector_ s) = ritzVector_ s ->
  A_ (refine_n k s) = A_ s /\
  ritzVector_ (refine_n k s) = ritzVector_ s /\
  converged (refine_n k s) tol = converged s tol /\
  ((1 <= k)%nat ->
   ritzValue_ (refine_n k s) = rayleigh (A_ s) (ritzVector_ s)).
Proof.
  intros Hfix. induction k as [|k IH].
  - repeat split. intros Hk. lia.
  - destruct IH as (HA & Hx & _ & _). rewrite refine_n_succ.
    assert (Hx' : ritzVector_ (refine (refine_n k s)) = ritzVector_ s).
    { rewrite refine_ritzVector, HA, Hx. exact Hfix. }
    split; [rewrite refine_A; exact HA|]. split; [exact Hx'|]. split.
    + apply converged_ext; [rewrite refine_A; exact HA|exact Hx'].
    + intros _. rewrite (refine_rayleigh_consistent (refine_n k s)).
      rewrite refine_A, HA, Hx'. reflexivity.
Qed.

(** X10. A fixed point of the power iteration stays: when
    [powerIteration] maps the stored Ritz vector to itself, a call of
    [compute] with [maxIterations >= 1] leaves the vector, stores its
    Rayleigh quotient as Ritz value, and answers what the convergence test
    answers on the object before the call, after one step when that is
    [true] and after all [maxIterations] steps when it is [false]. *)
Theorem compute_at_fixed_point (maxIterations : N) tol s :
  powerIteration s (ritzVector_ s) = ritzVector_ s ->
  (0 < maxIterations)%N ->
  fst (compute maxIterations tol s) = converged s tol /\
  eigenvector (snd (compute maxIterations tol s)) = eigenvector s /\
  eigenvalue (snd (compute maxIterations tol s)) =
    rayleigh (A_ s) (eigenvector s) /\
  snd (compute maxIterations tol s) =
    refine_n (if converged s tol then 1 else N.to_nat maxIterations) s.
Proof.
  intros Hfix Hpos.
  destruct (compute_loop_spec (N.to_nat maxIterations) tol s)
    as (k & Hle & Hs & Hnot & Htrue & Hfalse).
  fold (compute maxIterations tol s) in Hs, Htrue, Hfalse.
  destruct (compute_steps maxIterations tol s) as (k' & _ & Hs' & Hk' & _).
  assert (Hk : (1 <= k)%nat).
  { destruct (fst (compute maxIterations tol s)).
    - apply (proj1 Htrue eq_refl).
    - rewrite (Hfalse eq_refl). lia. }
  destruct (refine_n_fixed_point k tol s Hfix) as (_ & Hx & Hc & Hv).
  assert (Hres : fst (compute maxIterations tol s) = converged s tol).
  { rewrite <- Hc. destruct (fst (compute maxIterations tol s)).
    - symmetry. apply (proj1 Htrue eq_refl).
    - destruct (converged (refine_n k s) tol) eqn:Hck; [|reflexivity].
      apply (proj2 Htrue). split; [exact Hk|reflexivity]. }
  split; [exact Hres|]. unfold eigenvector, eigenvalue. rewrite Hs.
  split; [exact Hx|]. split; [apply Hv, Hk|].
  destruct (converged s tol) eqn:Hcs.
  - f_equal. destruct k as [|[|k]]; [lia|reflexivity|].
    assert (H1 : converged (refine_n 1 s) tol = false) by (apply Hnot; lia).
    destruct (refine_n_fixed_point 1 tol s Hfix) as (_ & _ & Hc1 & _).
    congruence.
  - f_equal. apply Hfalse. exact Hres.
Qed.

(** X6. Splitting a budget over two calls: a call with budget [m + n] is the
    call with budget [m] when that one returns [true] (the rest of the
    budget is not used), and otherwise the call with budget [m] followed by
    a call with budget [n] and the same tolerance. *)
Theorem compute_split_budget (m n : N) tol s :
  compute (m + n) tol s =
  if fst (compute m tol s) then compute m tol s
  else compute n tol (snd (compute m tol s)).
Proof.
  unfold compute. rewrite N2Nat.inj_add, compute_loop_add.
  destruct (compute_loop (N.to_nat m) tol false s) as [c s'] eqn:Hm.
  simpl. destruct c; [apply compute_loop_converged|reflexivity].
Qed.

(** [normalize] keeps the length of a vector. *)
Lemma length_normalize (x : Vector F) : length (normalize x) = length x.
Proof.
  unfold normalize. destruct (s_ltb s_zero (squaredNorm x)); [|reflexivity].
  apply length_map.
Qed.

Lemma refine_n_length (n : nat) k s :
  (forall x, length x = n -> length (op_mul (A_ s) x) = n) ->
  length (ritzVector_ s) = n ->
  length (ritzVector_ (refine_n k s)) = n.
Proof.
  revert s. induction k as [|k IH]; intros s Hop Hs; [exact Hs|].
  simpl. apply IH.
  - exact Hop.
  - rewrite refine_ritzVector, length_normalize. apply Hop, Hs.
Qed.

Lemma run_calls_length (n : nat) (calls : list (N * F)) s :
  (forall x, length x = n -> length (op_mul (A_ s) x) = n) ->
  length (ritzVector_ s) = n ->
  length (ritzVector_ (run_calls calls s)) = n /\
  A_ (run_calls calls s) = A_ s /\
  dim_ (run_calls calls s) = dim_ s.
Proof.
  revert s. induction calls as [|c calls IH]; intros s Hop Hs.
  - repeat split. exact Hs.
  - change (run_calls (c :: calls) s)
      with (run_calls calls (snd (compute (fst c) (snd c) s))).
    destruct (compute_steps_bound (fst c) (snd c) s) as (k & _ & Hk).
    rewrite Hk.
    destruct (IH (refine_n k s)) as (Hlen & HA & Hdim).
    + rewrite refine_n_A. exact Hop.
    + apply refine_n_length; assumption.
    + rewrite HA, Hdim, refine_n_A, refine_n_dim. repeat split. exact Hlen.
Qed.

(** X7. The dimension of the Ritz vector: when the operator maps vectors of
    length [n] to vectors of length [n] and the start vector (given or
    random) has length [n], [eigenvector()] has length [n] after
    construction and after any calls of [compute], which also leave the
    operator and [dim_] as construction set them. *)
Theorem eigenvector_length
    (Random : Z -> Vector F) (A : Op) (initial : option (Vector F))
    (n : nat) (calls : list (N * F)) :
  (forall x, length x = n -> length (op_mul A x) = n) ->
  length (match initial with Some v => v
                           | None => Random (to_int (rows A)) end) = n ->
  length (eigenvector (run_calls calls (PowerMethod_new Random A initial))) = n /\
  A_ (run_calls calls (PowerMethod_new Random A initial)) = A /\
  dim_ (run_calls calls (PowerMethod_new Random A initial)) = to_int (rows A).
Proof.
  intros Hop Hinit.
  apply (run_calls_length calls (PowerMethod_new Random A initial)).
  - exact Hop.
  - simpl. unfold powerIteration. simpl.
    rewrite length_normalize. apply Hop.
    rewrite length_normalize. exact Hinit.
Qed.

End ComputeLaws.

(** ** Laws on [double] *)

Section DoubleLaws.
Context {Op : Type} `{Operator float Op}.
Implicit Types (s : PowerMethod float Op).

(** No [double] is below NaN. *)
Lemma ltb_nan_r (x : float) : PrimFloat.ltb x nan = false.
Proof.
  rewrite FloatAxioms.ltb_spec. unfold SpecFloat.SFltb.
  replace (FloatOps.Prim2SF nan) with SpecFloat.S754_nan by reflexivity.
  destruct (FloatOps.Prim2SF x); reflexivity.
Qed.

(** X12. With the tolerance NaN the test [error < tol] never answers [true]:
    [compute] returns [false] and performs all [maxIterations] steps. *)
Theorem compute_nan_tol (maxIterations : N) s :
  fst (compute maxIterations nan s) = false /\
  snd (compute maxIterations nan s) = refine_n (N.to_nat maxIterations) s /\
  converged (snd (compute maxIterations nan s)) nan = false.
Proof.
  assert (Hnever : forall s', converged s' nan = false).
  { intros s'. unfold converged. cbv zeta. apply ltb_nan_r. }
  destruct (@compute_never_converged _ _ _ _ maxIterations nan s Hnever)
    as [Hf Hs].
  split; [exact Hf|]. split; [exact Hs|apply Hnever].
Qed.

(** The rounding of a result with the sign bit clear is not negative. *)
Lemma binary_round_aux_not_negative prec emax mx ex lx :
  sf_not_negative (SpecFloat.binary_round_aux prec emax false mx ex lx).
Proof.
  unfold SpecFloat.binary_round_aux.
  destruct (SpecFloat.shr_fexp prec emax mx ex lx) as [mrs' e'].
  destruct (SpecFloat.shr_fexp prec emax _ e' SpecFloat.loc_Exact)
    as [mrs'' e''].
  destruct (SpecFloat.shr_m mrs''); simpl; auto.
  destruct (Z.leb e'' (Z.sub emax prec)); simpl; reflexivity.
Qed.

(** A square root is a zero, a positive number, plus infinity or NaN. *)
Lemma SFsqrt_not_negative prec emax x :
  sf_not_negative (SpecFloat.SFsqrt prec emax x).
Proof.
  destruct x as [sign | [|] | | [|] m e]; simpl; auto.
  destruct (SpecFloat.SFsqrt_core_binary prec emax (Zpos m) e) as [[mz ez] lz].
  apply binary_round_aux_not_negative.
Qed.

Lemma SFltb_not_negative a b :
  sf_not_negative a ->
  SpecFloat.SFleb b (SpecFloat.S754_zero false) = true ->
  SpecFloat.SFltb a b = false.
Proof.
  destruct a as [sa | sa | | sa ma ea]; destruct b as [sb | sb | | sb mb eb];
    simpl; intros Ha Hb; try subst sa; try reflexivity; try discriminate;
    destruct sb; try reflexivity; try discriminate.
Qed.

(** No square root is below a [double] that is at most 0. *)
Lemma sqrt_not_below (x tol : float) :
  PrimFloat.leb tol 0 = true -> PrimFloat.ltb (PrimFloat.sqrt x) tol = false.
Proof.
  intros Htol. rewrite FloatAxioms.leb_spec in Htol.
  rewrite FloatAxioms.ltb_spec, FloatAxioms.sqrt_spec.
  apply SFltb_not_negative; [apply SFsqrt_not_negative|exact Htol].
Qed.

(** [<] followed by [<=] is [<] on the numbers of the specification. *)
Lemma SFltb_SFleb_trans a b c :
  SpecFloat.SFltb a b = true -> SpecFloat.SFleb b c = true ->
  SpecFloat.SFltb a c = true.
Proof.
  unfold SpecFloat.SFltb, SpecFloat.SFleb.
  destruct a as [sa | sa | | sa ma ea]; destruct b as [sb | sb | | sb mb eb];
    destruct c as [sc | sc | | sc mc ec]; simpl;
    try discriminate; try reflexivity;
    try (destruct sa; simpl; try discriminate; try reflexivity);
    try (destruct sb; simpl; try discriminate; try reflexivity);
    try (destruct sc; simpl; try discriminate; try reflexivity).
  all: rewrite ?Pos.compare_cont_spec; simpl.
  all: destruct (Z.compare_spec ea eb); destruct (Z.compare_spec eb ec);
       destruct (Z.compare_spec ea ec); subst;
       try lia; try discriminate; try reflexivity.
  all: destruct (Pos.compare_spec ma mb); destruct (Pos.compare_spec mb mc);
       destruct (Pos.compare_spec ma mc); subst; simpl;
       try lia; try discriminate; try reflexivity.
Qed.

Lemma ltb_leb_trans (e tol1 tol2 : float) :
  PrimFloat.ltb e tol1 = true -> PrimFloat.leb tol1 tol2 = true ->
  PrimFloat.ltb e tol2 = true.
Proof.
  rewrite !FloatAxioms.ltb_spec, FloatAxioms.leb_spec.
  apply SFltb_SFleb_trans.
Qed.

(** X8. On [double], with a tolerance [tol <= 0] no residual norm passes
    the test [error < tol] (a norm is a square root): [compute] returns
    [false] and performs all [maxIterations] steps. *)
Theorem compute_nonpositive_tol (maxIterations : N) (tol : float) s :
  PrimFloat.leb tol 0 = true ->
  fst (compute maxIterations tol s) = false /\
  snd (compute maxIterations tol s) = refine_n (N.to_nat maxIterations) s.
Proof.
  intros Htol. apply compute_never_converged.
  intros s'. unfold converged, norm. cbv zeta.
  apply sqrt_not_below. exact Htol.
Qed.

Lemma converged_tol_le s (tol1 tol2 : float) :
  PrimFloat.leb tol1 tol2 = true ->
  converged s tol1 = true -> converged s tol2 = true.
Proof.
  unfold converged. cbv zeta. intros Hle Hc.
  exact (@ltb_leb_trans _ tol1 tol2 Hc Hle).
Qed.

Lemma compute_loop_tol_le left (tol1 tol2 : float) s :
  PrimFloat.leb tol1 tol2 = true ->
  fst (compute_loop left tol1 false s) = true ->
  exists k1 k2 : nat,
    (1 <= k2 <= k1)%nat /\ (k1 <= left)%nat /\
    snd (compute_loop left tol1 false s) = refine_n k1 s /\
    compute_loop left tol2 false s = (true, refine_n k2 s).
Proof.
  intros Hle. revert s. induction left as [|left IH]; intros s Ht.
  - discriminate Ht.
  - rewrite compute_loop_step in Ht. rewrite !compute_loop_step.
    destruct (converged (refine s) tol1) eqn:Hc1.
    + rewrite (@converged_tol_le (refine s) tol1 tol2 Hle Hc1).
      rewrite !compute_loop_converged.
      exists 1%nat, 1%nat. repeat split; lia.
    + destruct (IH (refine s) Ht) as (k1 & k2 & Hk & Hk1 & Hs1 & Hs2).
      destruct (converged (refine s) tol2) eqn:Hc2.
      * rewrite compute_loop_converged.
        exists (S k1), 1%nat. repeat split; try lia. exact Hs1.
      * exists (S k1), (S k2). repeat split; try lia; assumption.
Qed.

(** X9. On [double], a looser tolerance is met no later: when
    [compute(maxIterations, tol1)] returns [true] after [k1] steps and
    [tol1 <= tol2], then [compute(maxIterations, tol2)] returns [true] too,
    after [k2 <= k1] steps. *)
Theorem compute_looser_tol (maxIterations : N) (tol1 tol2 : float) s :
  PrimFloat.leb tol1 tol2 = true ->
  fst (compute maxIterations tol1 s) = true ->
  exists k1 k2 : nat,
    (1 <= k2 <= k1)%nat /\ (k1 <= N.to_nat maxIterations)%nat /\
    snd (compute maxIterations tol1 s) = refine_n k1 s /\
    compute maxIterations tol2 s = (true, refine_n k2 s).
Proof. unfold compute. apply compute_loop_tol_le. Qed.

End DoubleLaws.

(** ** The dimension stored at construction *)

Section Dimension.
Context {F : Type} `{Scalar F} {Op : Type} `{Operator F Op}.

Lemma to_int_small (z : Z) : (- 2 ^ 31 <= z < 2 ^ 31)%Z -> to_int z = z.
Proof. intros Hz. unfold to_int. rewrite Z.mod_small; lia. Qed.

(** X13. When the number of rows of the operator fits an [int], [dim_] is that
    number, after construction and after any calls of [compute]. *)
Theorem dim_is_rows
    (Random : Z -> Vector F) (A : Op) (initial : option (Vector F))
    (calls : list (N * F)) :
  (0 <= rows A < 2 ^ 31)%Z ->
  dim_ (run_calls calls (PowerMethod_new Random A initial)) = rows A.
Proof.
  intros Hrows.
  destruct (run_calls_frame calls (PowerMethod_new Random A initial)) as [_ Hd].
  rewrite Hd. simpl. apply to_int_small. lia.
Qed.

End Dimension.

(** ** Instances of the laws *)

Section LawInstances.

Local Abbreviation s31 := (PowerMethod_new no_random diag31 (Some [1; 1]%float)).

(** X2, witness. *)
Lemma compute_result_is_converged_witness :
  (0 < 3)%N /\
  fst (compute 3 tol_1e6 s31) = converged (snd (compute 3 tol_1e6 s31)) tol_1e6.
Proof.
  assert (Hpos : (0 < 3)%N) by reflexivity.
  split; [exact Hpos|].
  exact (@compute_result_is_converged _ _ _ _ 3%N tol_1e6 s31 Hpos).
Defined.

(** X3, witness. *)
Lemma compute_true_residual_below_tol_witness :
  fst (compute 100 tol_1e6 s31) = true /\
  s_lt (norm (vsub
          (op_mul (A_ s31) (eigenvector (snd (compute 100 tol_1e6 s31))))
          (scale (eigenvalue (snd (compute 100 tol_1e6 s31)))
                 (eigenvector (snd (compute 100 tol_1e6 s31))))))
       tol_1e6.
Proof.
  assert (Ht : fst (compute 100 tol_1e6 s31) = true) by (vm_compute; reflexivity).
  split; [exact Ht|].
  exact (@compute_true_residual_below_tol _ _ _ _ 100%N tol_1e6 s31 Ht).
Defined.

(** X4, witness. *)
Lemma compute_always_counts_witness :
  (0 < 5)%N /\
  (nrIterations (snd (compute 100 tol_1e6 s31)) + 5 < size_t_modulus)%N /\
  (nrIterations (snd (compute 100 tol_1e6 s31))
   < nrIterations (snd (compute 5 tol_1e6 (snd (compute 100 tol_1e6 s31)))))%N.
Proof.
  assert (Hpos : (0 < 5)%N) by reflexivity.
  assert (Hlt : (nrIterations (snd (compute 100 tol_1e6 s31)) + 5
                 < size_t_modulus)%N) by (vm_compute; reflexivity).
  split; [exact Hpos|]. split; [exact Hlt|].
  exact (@compute_always_counts _ _ _ _ 5%N tol_1e6
           (snd (compute 100 tol_1e6 s31)) Hpos Hlt).
Defined.

(** X5, witness. *)
Lemma compute_false_uses_budget_witness :
  fst (compute 3 tol_1e6 s31) = false /\
  (nrIterations s31 + 3 < size_t_modulus)%N /\
  nrIterations (snd (compute 3 tol_1e6 s31)) = (nrIterations s31 + 3)%N.
Proof.
  assert (Hf : fst (compute 3 tol_1e6 s31) = false) by (vm_compute; reflexivity).
  assert (Hlt : (nrIterations s31 + 3 < size_t_modulus)%N)
    by (vm_compute; reflexivity).
  split; [exact Hf|]. split; [exact Hlt|].
  exact (@compute_false_uses_budget _ _ _ _ 3%N tol_1e6 s31 Hf Hlt).
Defined.

Lemma diag31_keeps_length (x : Vector float) :
  length x = 2%nat -> length (op_mul diag31 x) = 2%nat.
Proof. intros _. reflexivity. Qed.

(** X7, witness. *)
Lemma eigenvector_length_witness :
  length [1; 1]%float = 2%nat /\
  length (eigenvector (run_calls [(3%N, tol_1e6); (100%N, tol_1e6)] s31)) = 2%nat /\
  A_ (run_calls [(3%N, tol_1e6); (100%N, tol_1e6)] s31) = diag31 /\
  dim_ (run_calls [(3%N, tol_1e6); (100%N, tol_1e6)] s31) = to_int (rows diag31).
Proof.
  assert (Hlen : length [1; 1]%float = 2%nat) by reflexivity.
  split; [exact Hlen|].
  exact (@eigenvector_length _ _ _ _ no_random diag31 (Some [1; 1]%float) 2%nat
           [(3%N, tol_1e6); (100%N, tol_1e6)] diag31_keeps_length Hlen).
Defined.

(** X13, witness. *)
Lemma dim_is_rows_witness :
  (0 <= rows diag31 < 2 ^ 31)%Z /\
  dim_ (run_calls [(3%N, tol_1e6)] s31) = rows diag31.
Proof.
  assert (Hrows : (0 <= rows diag31 < 2 ^ 31)%Z) by (simpl; lia).
  split; [exact Hrows|].
  exact (@dim_is_rows _ _ _ _ no_random diag31 (Some [1; 1]%float)
           [(3%N, tol_1e6)] Hrows).
Defined.

(** X8, witness: the tolerance [-1]. *)
Lemma compute_nonpositive_tol_witness :
  PrimFloat.leb (-1) 0 = true /\
  fst (compute 4 (-1)%float s31) = false /\
  snd (compute 4 (-1)%float s31) = refine_n 4 s31.
Proof.
  assert (Htol : PrimFloat.leb (-1) 0 = true) by (vm_compute; reflexivity).
  split; [exact Htol|].
  exact (@compute_nonpositive_tol _ _ 4%N (-1)%float s31 Htol).
Defined.

(** X9, witness: the tolerances [1e-6] and [2^-10]. *)
Lemma compute_looser_tol_witness :
  PrimFloat.leb tol_1e6 0x1p-10 = true /\
  fst (compute 100 tol_1e6 s31) = true /\
  exists k1 k2 : nat,
    (1 <= k2 <= k1)%nat /\ (k1 <= N.to_nat 100)%nat /\
    snd (compute 100 tol_1e6 s31) = refine_n k1 s31 /\
    compute 100 0x1p-10%float s31 = (true, refine_n k2 s31).
Proof.
  assert (Hle : PrimFloat.leb tol_1e6 0x1p-10 = true)
    by (vm_compute; reflexivity).
  assert (Ht : fst (compute 100 tol_1e6 s31) = true)
    by (vm_compute; reflexivity).
  split; [exact Hle|]. split; [exact Ht|].
  exact (@compute_looser_tol _ _ 100%N tol_1e6 0x1p-10%float s31 Hle Ht).
Defined.

(** X10, witness: [diag(3, 1)] at its eigenvector [(1, 0)]. *)
Lemma compute_at_fixed_point_witness :
  let s := PowerMethod_new no_random diag31 (Some [1; 0]%float) in
  powerIteration s (ritzVector_ s) = ritzVector_ s /\
  (0 < 5)%N /\
  fst (compute 5 tol_1e6 s) = converged s tol_1e6 /\
  eigenvector (snd (compute 5 tol_1e6 s)) = eigenvector s /\
  eigenvalue (snd (compute 5 tol_1e6 s)) = rayleigh (A_ s) (eigenvector s) /\
  snd (compute 5 tol_1e6 s) =
    refine_n (if converged s tol_1e6 then 1 else N.to_nat 5) s.
Proof.
  cbv zeta.
  assert (Hfix : powerIteration
                   (PowerMethod_new no_random diag31 (Some [1; 0]%float))
                   (ritzVector_
                      (PowerMethod_new no_random diag31 (Some [1; 0]%float)))
                 = ritzVector_
                     (PowerMethod_new no_random diag31 (Some [1; 0]%float)))
    by (vm_compute; reflexivity).
  assert (Hpos : (0 < 5)%N) by reflexivity.
  split; [exact Hfix|]. split; [exact Hpos|].
  exact (@compute_at_fixed_point _ _ _ _ 5%N tol_1e6
           (PowerMethod_new no_random diag31 (Some [1; 0]%float)) Hfix Hpos).
Defined.

End LawInstances.
